(** * hello.py: the reader script and its greeting helper

    A shallow embedding of [hello.py].  The script imports the class
    [LayoutPDFReader] of the llmsherpa package, defines [read_pdf] and
    [greetings], calls [read_pdf("")] and prints what it returns.

    Python strings are modelled by [string]; none of the code looks inside
    a character.  A Python call runs in a world it may change, may raise,
    may call the llmsherpa package and may write to standard output: the
    monad [M] below carries the four. *)

From Stdlib Require Import String Ascii List Bool Arith Lia.
Import ListNotations.
Local Open Scope list_scope.
Local Open Scope string_scope.

(** ** Outcomes of a call *)

(** A raised exception: its class and its message. *)
Record exn : Type := Exn { exn_class : string; exn_msg : string }.

(** A Python call returns a value or raises. *)
Inductive outcome (A : Type) : Type :=
| Normal (a : A)
| Raise (e : exn).
Arguments Normal {A} a.
Arguments Raise {A} e.

Definition is_normal {A : Type} (o : outcome A) : bool :=
  match o with
  | Normal _ => true
  | Raise _ => false
  end.

(** ** The llmsherpa package

    [from llmsherpa.readers import LayoutPDFReader] (line 1) binds the
    name of a class whose code is not part of this repository.  Its
    constructor and its [read_pdf] method are the operations of the
    interface below; each runs in the package's own world (connection
    pools, the network behind them), may change it and may raise. *)
Class Llmsherpa (World Reader Document : Type) : Type := {
  LayoutPDFReader : string -> World -> outcome Reader * World;
  reader_read_pdf : Reader -> string -> World -> outcome Document * World
}.

(** The calls a run makes to the package, in order. *)
Inductive call (Reader : Type) : Type :=
| CallNew (url : string)
| CallRead (r : Reader) (path_or_url : string).
Arguments CallNew {Reader} url.
Arguments CallRead {Reader} r path_or_url.

(** The arguments of the constructor calls of a trace. *)
Fixpoint ctor_args {Reader : Type} (cs : list (call Reader)) : list string :=
  match cs with
  | [] => []
  | CallNew url :: cs' => url :: ctor_args cs'
  | CallRead _ _ :: cs' => ctor_args cs'
  end.

(** ** The monad of effects *)

(** What a run leaves behind: its outcome, the world after it, the calls
    it made to the package and what it wrote to standard output. *)
Record run (World Reader A : Type) : Type := Run {
  result : outcome A;
  world : World;
  calls : list (call Reader);
  out : string
}.
Arguments Run {World Reader A} result world calls out.
Arguments result {World Reader A} r.
Arguments world {World Reader A} r.
Arguments calls {World Reader A} r.
Arguments out {World Reader A} r.

Definition M (World Reader A : Type) : Type := World -> run World Reader A.

Definition ret {World Reader A : Type} (a : A) : M World Reader A :=
  fun w => Run (Normal a) w [] "".

(** Sequencing: an exception of the first part skips the second; what
    the first part did to the world, its calls and its output stay. *)
Definition bind {World Reader A B : Type}
  (m : M World Reader A) (f : A -> M World Reader B) : M World Reader B :=
  fun w =>
    let r := m w in
    match result r with
    | Normal a =>
        let r' := f a (world r) in
        Run (result r') (world r') (calls r ++ calls r')%list (out r ++ out r')
    | Raise e => Run (Raise e) (world r) (calls r) (out r)
    end.

Notation "x <- c1 ;; c2" := (bind c1 (fun x => c2))
  (at level 61, c1 at next level, right associativity).

(** ** Formatted string literals *)

(** The parts of an f-string: literal text, or a replacement field whose
    expression has already been evaluated to a [str]. *)
Inductive fpart : Type :=
| Lit (s : string)
| Field (v : string).

(** [format(v, "")] of a [str] is the string itself. *)
Definition format_value (v : string) : string := v.

(** The parts are formatted and joined from left to right. *)
Fixpoint build_string (ps : list fpart) : string :=
  match ps with
  | [] => ""
  | Lit s :: ps' => s ++ build_string ps'
  | Field v :: ps' => format_value v ++ build_string ps'
  end.

(** ** The script *)

Definition newline : string := String (ascii_of_nat 10) EmptyString.

(** [print(s)]: the string and a line end on standard output. *)
Definition print {World Reader : Type} (s : string) : M World Reader unit :=
  fun w => Run (Normal tt) w [] (s ++ newline).

(** The address of the hosted parser, as line 4 spells it; the
    statements below name it [api_url]. *)
Definition api_url : string :=
  "https://readers.llmsherpa.com/api/document/developer/parseDocument?renderFormat=all".

Section Script.

Context {World Reader Document : Type}.
Context {lib : Llmsherpa World Reader Document}.

(** The two entry points of the package, each call recorded. *)
Definition new_LayoutPDFReader (url : string) : M World Reader Reader :=
  fun w =>
    let ow := LayoutPDFReader url w in
    Run (fst ow) (snd ow) [CallNew url] "".

Definition call_read_pdf (r : Reader) (path_or_url : string)
  : M World Reader Document :=
  fun w =>
    let ow := reader_read_pdf r path_or_url w in
    Run (fst ow) (snd ow) [CallRead r path_or_url] "".

(** Lines 3 to 8.  The two commented lines (5 and 7) are not code: the
    reader is built and dropped, [call_read_pdf] is not reached. *)
Definition read_pdf (path : string) : M World Reader string :=
  let llmsherpa_api_url :=
    "https://readers.llmsherpa.com/api/document/developer/parseDocument?renderFormat=all" in
  pdf_reader <- new_LayoutPDFReader llmsherpa_api_url ;;
  ret "success".

(** Lines 10 and 11. *)
Definition greetings (name : string) : M World Reader string :=
  ret (build_string [Lit "Hello, "; Field name; Lit "!"]).

(** Lines 12 and 13, the statements of the script that do something.
    The import of line 1 is what provides [lib]; the two [def]s bind
    names and run nothing. *)
Definition script : M World Reader unit :=
  res <- read_pdf "" ;;
  print res.

End Script.

(** ** The process *)

(** How the interpreter ends: after the last statement, or on an
    exception nobody caught. *)
Inductive termination : Type :=
| Finished
| Uncaught (e : exn).

Record process (Reader : Type) : Type := Process {
  stdout : string;
  status : termination;
  library_calls : list (call Reader)
}.
Arguments Process {Reader} stdout status library_calls.
Arguments stdout {Reader} p.
Arguments status {Reader} p.
Arguments library_calls {Reader} p.

(** Running the script from a world [w], standard output empty. *)
Definition main {World Reader Document : Type}
  {lib : Llmsherpa World Reader Document} (w : World) : process Reader :=
  let r := script w in
  Process (out r)
          (match result r with
           | Normal _ => Finished
           | Raise e => Uncaught e
           end)
          (calls r).

(** ** The client the script runs against

    The package is outside the repository; what the script needs of it
    is its constructor, taken here as the specification describes it,
    over any world. *)
Module Double.

(** The reader object, "bound to" the address it was constructed on. *)
Record reader : Type := Reader { parser_api_url : string }.

(** Modelled from the spec: the constructor of [LayoutPDFReader], whose
    code is in the llmsherpa package and not in this repository.  It
    "constructs a reader object bound to a fixed API URL"; there is "no
    resource acquisition beyond an object construction", and the object
    is "never exercised against the network".  So the call returns the
    reader holding its argument and leaves the world as it was. *)
Definition construct {World : Type} (url : string) (w : World)
  : outcome reader * World :=
  (Normal (Reader url), w).

(** The read operation of the reader stands for the exchange with the
    hosted parser.  The script does not reach it and no statement below
    rests on what it answers. *)
Definition read {World : Type} (r : reader) (path_or_url : string) (w : World)
  : outcome string * World :=
  (Normal (parser_api_url r ++ " " ++ path_or_url), w).

Definition client {World : Type} : Llmsherpa World reader string :=
  {| LayoutPDFReader := construct; reader_read_pdf := read |}.

End Double.

(** * Properties *)

(** ** Strings *)

Lemma length_append (s t : string) :
  String.length (s ++ t) = String.length s + String.length t.
Proof.
  induction s as [|c s IH]; simpl; [reflexivity | now rewrite IH].
Qed.

(** A common suffix can be cancelled. *)
Lemma append_inv_tail (t s1 s2 : string) : s1 ++ t = s2 ++ t -> s1 = s2.
Proof.
  revert s2.
  induction s1 as [|c1 s1 IH]; intros [|c2 s2] E; simpl in E.
  - reflexivity.
  - apply (f_equal String.length) in E. simpl in E.
    rewrite length_append in E. lia.
  - apply (f_equal String.length) in E. simpl in E.
    rewrite length_append in E. lia.
  - injection E as Ec Es. subst c2. f_equal. now apply IH.
Qed.

Lemma build_string_greeting (name : string) :
  build_string [Lit "Hello, "; Field name; Lit "!"] = "Hello, " ++ name ++ "!".
Proof.
  unfold build_string, format_value. reflexivity.
Qed.

(** ** The monad laws

    Runs are compared world by world. *)

Lemma append_nil_r (s : string) : s ++ "" = s.
Proof.
  induction s as [|c s IH]; simpl; [reflexivity | now rewrite IH].
Qed.

Lemma append_assoc (s t u : string) : (s ++ t) ++ u = s ++ t ++ u.
Proof.
  induction s as [|c s IH]; simpl; [reflexivity | now rewrite IH].
Qed.

Lemma bind_ret_l {World Reader A B : Type}
  (a : A) (f : A -> M World Reader B) (w : World) :
  bind (ret a) f w = f a w.
Proof.
  unfold bind, ret. cbn. now destruct (f a w).
Qed.

Lemma bind_ret_r {World Reader A : Type} (m : M World Reader A) (w : World) :
  bind m ret w = m w.
Proof.
  unfold bind, ret.
  destruct (m w) as [[a|e] w' cs o]; cbn; [|reflexivity].
  now rewrite app_nil_r, append_nil_r.
Qed.

Lemma bind_assoc {World Reader A B C : Type}
  (m : M World Reader A) (f : A -> M World Reader B)
  (g : B -> M World Reader C) (w : World) :
  bind (bind m f) g w = bind m (fun a => bind (f a) g) w.
Proof.
  unfold bind.
  destruct (m w) as [[a|e] w1 cs1 o1]; cbn; [|reflexivity].
  destruct (f a w1) as [[b|e] w2 cs2 o2]; cbn; [|reflexivity].
  now rewrite app_assoc, append_assoc.
Qed.

(** An exception of the first part is the exception of the whole. *)
Lemma bind_raise {World Reader A B : Type}
  (m : M World Reader A) (f : A -> M World Reader B) (w : World) (e : exn) :
  result (m w) = Raise e -> bind m f w = Run (Raise e) (world (m w)) (calls (m w)) (out (m w)).
Proof.
  intros E. unfold bind. now rewrite E.
Qed.

(** ** The two functions and the script, over any client *)

Section Properties.

Context {World Reader Document : Type}.
Context {lib : Llmsherpa World Reader Document}.

(** What a call of [read_pdf] leaves behind, read off the constructor's
    own outcome. *)
Lemma read_pdf_run (path : string) (w : World) :
  read_pdf path w =
  Run (match fst (LayoutPDFReader api_url w) with
       | Normal _ => Normal "success"
       | Raise e => Raise e
       end)
      (snd (LayoutPDFReader api_url w))
      [CallNew api_url]
      "".
Proof.
  unfold read_pdf, bind, new_LayoutPDFReader, ret. cbn.
  fold api_url.
  destruct (LayoutPDFReader api_url w) as [[r|e] w']; reflexivity.
Qed.

Lemma script_run (w : World) :
  script w =
  match result (read_pdf "" w) with
  | Normal res =>
      Run (Normal tt) (world (read_pdf "" w)) (calls (read_pdf "" w))
          (out (read_pdf "" w) ++ res ++ newline)
  | Raise e =>
      Run (Raise e) (world (read_pdf "" w)) (calls (read_pdf "" w))
          (out (read_pdf "" w))
  end.
Proof.
  unfold script, bind, print. cbn.
  destruct (result (read_pdf "" w)); cbn; [|reflexivity].
  now rewrite app_nil_r.
Qed.

Lemma greetings_run (name : string) (w : World) :
  greetings (Reader := Reader) name w =
  Run (Normal ("Hello, " ++ name ++ "!")) w [] "".
Proof.
  unfold greetings, ret. now rewrite build_string_greeting.
Qed.

(** C1: for every string [s], [greetings s] returns exactly
    ["Hello, " + s + "!"]. *)
Theorem greetings_returns_hello (s : string) (w : World) :
  result (greetings (Reader := Reader) s w) = Normal ("Hello, " ++ s ++ "!").
Proof.
  now rewrite greetings_run.
Qed.

(** Over any client: where the constructor returns, so does
    [read_pdf], with the literal. *)
Lemma read_pdf_success_if_constructed (p : string) (w : World) :
  is_normal (fst (LayoutPDFReader api_url w)) = true ->
  result (read_pdf p w) = Normal "success".
Proof.
  intros Hctor. rewrite read_pdf_run. cbn.
  destruct (fst (LayoutPDFReader api_url w)); [reflexivity|discriminate].
Qed.

(** Over any client: where the constructor returns, the script prints
    what [read_pdf] returned and finishes. *)
Lemma script_prints_if_constructed (w : World) :
  is_normal (fst (LayoutPDFReader api_url w)) = true ->
  exists res : string,
    result (read_pdf "" w) = Normal res /\
    library_calls (main w) = calls (read_pdf "" w) /\
    stdout (main w) = res ++ newline /\
    stdout (main w) = "success" ++ newline /\
    status (main w) = Finished.
Proof.
  intros Hctor. exists "success".
  assert (Hres : result (read_pdf "" w) = Normal "success").
  { rewrite read_pdf_run. cbn.
    destruct (fst (LayoutPDFReader api_url w));
      [reflexivity|discriminate]. }
  unfold main. rewrite script_run, Hres. cbn.
  rewrite read_pdf_run. cbn. repeat split; reflexivity.
Qed.

(** C4, as amended: [read_pdf] does not pass [path] to the constructor.
    The one argument of the construction is the fixed address, and
    [path] is used nowhere: two calls that differ in [path] alone leave
    the same run behind. *)
Theorem read_pdf_path_unused (path : string) (w : World) :
  ctor_args (calls (read_pdf path w)) = [api_url] /\
  forall path' : string, read_pdf path' w = read_pdf path w.
Proof.
  split.
  - now rewrite read_pdf_run.
  - intros path'. now rewrite !read_pdf_run.
Qed.

(** C5: the result of [read_pdf] does not depend on [path]. *)
Theorem read_pdf_result_independent_of_path (p1 p2 : string) (w : World) :
  result (read_pdf p1 w) = result (read_pdf p2 w).
Proof.
  now rewrite !read_pdf_run.
Qed.

(** C6: whatever the input, [read_pdf] does one thing outside itself: it
    constructs the client on the fixed address.  The read operation of
    the client is not called, nothing is written, and the world changes
    by the construction alone. *)
Theorem read_pdf_only_constructs_client (p : string) (w : World) :
  calls (read_pdf p w) =
    [CallNew "https://readers.llmsherpa.com/api/document/developer/parseDocument?renderFormat=all"] /\
  (forall (r : Reader) (u : string), ~ In (CallRead r u) (calls (read_pdf p w))) /\
  out (read_pdf p w) = "" /\
  world (read_pdf p w) = snd (LayoutPDFReader api_url w).
Proof.
  rewrite read_pdf_run. cbn. repeat split.
  intros r u [H|[]]. discriminate H.
Qed.

(** Over any client: [read_pdf] has no failure of its own.  It returns
    normally exactly when the constructor call it makes does. *)
Lemma read_pdf_fails_only_in_constructor (p : string) (w : World) :
  is_normal (result (read_pdf p w)) =
  is_normal (fst (LayoutPDFReader api_url w)).
Proof.
  rewrite read_pdf_run. cbn.
  now destruct (fst (LayoutPDFReader api_url w)).
Qed.

(** C8: [read_pdf] raises exactly when the constructor raises, and
    raises the same exception; nothing catches it, so the script ends on
    it, exactly then, with nothing printed. *)
Theorem constructor_failure_propagates (p : string) (w : World) (e : exn) :
  (result (read_pdf p w) = Raise e <->
   fst (LayoutPDFReader api_url w) = Raise e) /\
  (status (main w) = Uncaught e <->
   fst (LayoutPDFReader api_url w) = Raise e) /\
  (fst (LayoutPDFReader api_url w) = Raise e ->
   stdout (main w) = "").
Proof.
  unfold main. rewrite script_run, !read_pdf_run. cbn.
  destruct (fst (LayoutPDFReader api_url w)) as [r|e']; cbn.
  - repeat split; discriminate.
  - repeat split; try congruence.
Qed.

(** C9: [greetings] is pure and total.  Every call returns normally,
    leaves the world as it found it, calls nothing, writes nothing, and
    returns the same string for the same argument wherever it runs. *)
Theorem greetings_pure_total (s : string) (w : World) :
  (exists v : string, result (greetings (Reader := Reader) s w) = Normal v) /\
  world (greetings (Reader := Reader) s w) = w /\
  calls (greetings (Reader := Reader) s w) = [] /\
  out (greetings (Reader := Reader) s w) = "" /\
  forall w' : World,
    result (greetings (Reader := Reader) s w') =
    result (greetings (Reader := Reader) s w).
Proof.
  repeat split; try (intros w'); rewrite ?greetings_run; cbn; eauto.
Qed.

(** C10: [greetings] is injective: distinct names give distinct
    greetings. *)
Theorem greetings_injective (s1 s2 : string) (w : World) :
  s1 <> s2 ->
  result (greetings (Reader := Reader) s1 w) <>
  result (greetings (Reader := Reader) s2 w).
Proof.
  intros Hneq Heq. apply Hneq.
  rewrite !greetings_run in Heq.
  injection Heq as Heq.
  exact (append_inv_tail "!" s1 s2 Heq).
Qed.

End Properties.

(** ** The script against the client of the package *)

Section OnTheClient.

Context {World : Type}.

(** The construction returns, on any address and in any world. *)
Lemma construct_returns (url : string) (w : World) :
  LayoutPDFReader (Llmsherpa := Double.client) url w
  = (Normal (Double.Reader url), w).
Proof. reflexivity. Qed.

(** C2: for every string [p], the empty one included, [read_pdf p]
    returns exactly ["success"]. *)
Theorem read_pdf_returns_success (p : string) (w : World) :
  result (read_pdf (lib := Double.client) p w) = Normal "success".
Proof.
  apply read_pdf_success_if_constructed.
  now rewrite construct_returns.
Qed.

(** C3: the script calls [read_pdf] on the empty string and prints what
    it returns: standard output is exactly the line [success]. *)
Theorem script_prints_success (w : World) :
  exists res : string,
    result (read_pdf (lib := Double.client) "" w) = Normal res /\
    library_calls (main (lib := Double.client) w)
      = calls (read_pdf (lib := Double.client) "" w) /\
    stdout (main (lib := Double.client) w) = res ++ newline /\
    stdout (main (lib := Double.client) w) = "success" ++ newline /\
    status (main (lib := Double.client) w) = Finished.
Proof.
  apply script_prints_if_constructed.
  now rewrite construct_returns.
Qed.

(** C7: [read_pdf] cannot fail.  For every string input it returns
    normally and raises nothing: the one operation it executes besides
    returning its literal is the construction of the client, and the
    construction returns, whatever the address and the world. *)
Theorem read_pdf_cannot_fail (p : string) (w : World) :
  is_normal (result (read_pdf (lib := Double.client) p w)) = true /\
  (forall e : exn, result (read_pdf (lib := Double.client) p w) <> Raise e) /\
  calls (read_pdf (lib := Double.client) p w) = [CallNew api_url] /\
  (forall (url : string) (w' : World),
     is_normal (fst (LayoutPDFReader (Llmsherpa := Double.client) url w')) = true).
Proof.
  rewrite read_pdf_run, construct_returns. cbn.
  repeat split. intros e. discriminate.
Qed.

End OnTheClient.

(** ** Runs on concrete inputs *)

(** The scenarios of the specification. *)
Example greetings_world :
  result (greetings (World := nat) (Reader := Double.reader) "World" 1)
  = Normal "Hello, World!".
Proof. reflexivity. Qed.

Example greetings_empty :
  result (greetings (World := nat) (Reader := Double.reader) "" 1)
  = Normal "Hello, !".
Proof. reflexivity. Qed.

Example read_pdf_empty :
  result (read_pdf (lib := Double.client) "" 1) = Normal "success".
Proof. reflexivity. Qed.

Example read_pdf_any :
  result (read_pdf (lib := Double.client) "/tmp/any.pdf" 1) = Normal "success".
Proof. reflexivity. Qed.

(** The whole script. *)
Example main_with_client :
  main (lib := Double.client) 1
  = Process ("success" ++ newline) Finished [CallNew api_url].
Proof. reflexivity. Qed.

(** C4 fails as stated: on the path [/tmp/any.pdf] the constructor is
    called once, on the fixed address, and the path is not among its
    arguments. *)
Lemma read_pdf_path_not_passed :
  calls (read_pdf (lib := Double.client) "/tmp/any.pdf" 1)
    = [CallNew api_url] /\
  ~ In "/tmp/any.pdf"
       (ctor_args (calls (read_pdf (lib := Double.client) "/tmp/any.pdf" 1))).
Proof.
  split.
  - reflexivity.
  - cbn. intros [H|[]]. discriminate H.
Qed.

(** C10 at a concrete input. *)
Lemma greetings_injective_witness :
  "Ada" <> "Bob" /\
  result (greetings (World := nat) (Reader := Double.reader) "Ada" 0) <>
  result (greetings (World := nat) (Reader := Double.reader) "Bob" 0).
Proof.
  split.
  - discriminate.
  - apply (greetings_injective (World := nat) (Reader := Double.reader) "Ada" "Bob" 0).
    discriminate.
Defined.

(** ** Further properties of the script and of the greeting *)

(** Taking a string back out of a longer one. *)
Lemma substring_append_head (s t : string) :
  substring 0 (String.length s) (s ++ t) = s.
Proof.
  induction s as [|c s IH]; cbn.
  - now destruct t.
  - now rewrite IH.
Qed.

Lemma substring_append_skip (s t : string) (m : nat) :
  substring (String.length s) m (s ++ t) = substring 0 m t.
Proof.
  induction s as [|c s IH]; cbn; [reflexivity | exact IH].
Qed.

Section Further.

Context {World Reader Document : Type}.
Context {lib : Llmsherpa World Reader Document}.

(** X1: in every world, whether the constructor returns or raises, the
    script calls the package exactly once, to construct the client on
    the fixed address; it changes the world by that construction alone. *)
Theorem script_constructs_once (w : World) :
  library_calls (main w) = [CallNew api_url] /\
  ctor_args (library_calls (main w)) = [api_url] /\
  world (script w) = snd (LayoutPDFReader api_url w).
Proof.
  unfold main. rewrite script_run, !read_pdf_run. cbn.
  destruct (fst (LayoutPDFReader api_url w)); cbn; repeat split.
Qed.

(** X3: a greeting is eight characters longer than the name, so it is
    never empty. *)
Theorem greetings_length (s : string) (w : World) :
  exists g : string,
    result (greetings (Reader := Reader) s w) = Normal g /\
    String.length g = String.length s + 8 /\
    g <> "".
Proof.
  rewrite greetings_run. cbn.
  eexists. split; [reflexivity|]. split.
  - cbn. rewrite length_append. cbn. lia.
  - discriminate.
Qed.

(** X4: a greeting opens with [Hello, ], its last character is [!],
    and the name is all that stands between them: the greeting is eight
    characters longer than the name, and the characters after the first
    seven, as many as the name has, are the name. *)
Theorem greetings_name_recovered (s : string) (w : World) :
  exists g : string,
    result (greetings (Reader := Reader) s w) = Normal g /\
    prefix "Hello, " g = true /\
    substring 7 (String.length s) g = s /\
    String.length g = 7 + String.length s + 1 /\
    substring (String.length g - 1) 1 g = "!".
Proof.
  rewrite greetings_run. cbn [result].
  exists ("Hello, " ++ s ++ "!").
  assert (Hlen : String.length ("Hello, " ++ s ++ "!") = 7 + String.length s + 1).
  { rewrite !length_append. reflexivity. }
  split; [reflexivity|]. split; [|split; [|split]].
  - cbn. now destruct (s ++ "!").
  - cbn. apply substring_append_head.
  - exact Hlen.
  - rewrite Hlen.
    replace (7 + String.length s + 1 - 1) with (7 + String.length s) by lia.
    cbn. now rewrite substring_append_skip.
Qed.

End Further.
